(** * bdmt_parser: locating and reading a Blu-ray [bdmt_eng.xml]

    A shallow embedding of [bdmt_parser/__init__.py]: the class
    [BDMTMetadata] and the functions [find_bdmt_eng_file] and
    [get_disc_title], over a model of the parts of the Python runtime
    they call ([str.strip], [str.lower], [xml.etree.ElementPath],
    [os.path.exists], [pathlib.Path.exists] and [pathlib.Path.rglob]
    as CPython 3.11 implements them on a POSIX, case-sensitive
    filesystem without symbolic links, for a process that is not the
    superuser). *)

From Stdlib Require Import String Ascii List Bool Arith NArith Lia.
Import ListNotations.
Set Warnings "-register-all".
Open Scope string_scope.
Open Scope list_scope.

(** ** Exceptions and results *)

Module Py.

(** The exception classes that the modelled calls can raise.  All of
    them derive from [Exception]. *)
Inductive exn : Type :=
| FileNotFoundError
| PermissionError
| IsADirectoryError
| NotADirectoryError
| ParseError.

(** The outcome of a call: a value, or a raised exception. *)
Inductive result (A : Type) : Type :=
| Ok (a : A)
| Raise (e : exn).

Arguments Ok {A} a.
Arguments Raise {A} e.

Definition bind {A B : Type} (r : result A) (k : A -> result B) : result B :=
  match r with
  | Ok a => k a
  | Raise e => Raise e
  end.

(** [try: body  except Exception: handler]. Every constructor of [exn]
    is a subclass of [Exception], so the handler takes them all. *)
Definition try_except {A : Type} (body : result A) (handler : exn -> result A)
  : result A :=
  match body with
  | Ok a => Ok a
  | Raise e => handler e
  end.

Definition raises {A : Type} (r : result A) : bool :=
  match r with
  | Ok _ => false
  | Raise _ => true
  end.

End Py.

Import Py.

Declare Scope py_scope.
Delimit Scope py_scope with py.
Notation "x <- c ;; k" := (bind c (fun x => k))
  (at level 61, c at next level, right associativity) : py_scope.
Open Scope py_scope.

(** ** Python [str] methods

    A [str] is modelled by [string]; each [ascii] stands for the code
    point of the same number (the Latin-1 range). *)

Module Str.

(** [str.isspace] on one code point, restricted to code points below
    256: TAB..CR, FS..US, SPACE, NEL and NBSP. *)
Definition is_space (c : ascii) : bool :=
  let n := N_of_ascii c in
  ((9 <=? n) && (n <=? 13) || (28 <=? n) && (n <=? 32)
   || (n =? 133) || (n =? 160))%N.

(** [str.lower] on one code point below 256: A..Z and the Latin-1
    capitals (all of U+00C0..U+00DE but the multiplication sign). *)
Definition lower_char (c : ascii) : ascii :=
  let n := N_of_ascii c in
  if ((65 <=? n) && (n <=? 90)
      || (192 <=? n) && (n <=? 222) && negb (n =? 215))%N
  then ascii_of_N (n + 32)
  else c.

Fixpoint lower (s : string) : string :=
  match s with
  | EmptyString => EmptyString
  | String c s' => String (lower_char c) (lower s')
  end.

Fixpoint lstrip (s : string) : string :=
  match s with
  | EmptyString => EmptyString
  | String c s' => if is_space c then lstrip s' else s
  end.

Fixpoint rstrip (s : string) : string :=
  match s with
  | EmptyString => EmptyString
  | String c s' =>
      match rstrip s' with
      | EmptyString => if is_space c then EmptyString else String c EmptyString
      | t => String c t
      end
  end.

(** [str.strip()] with no argument: whitespace removed at both ends. *)
Definition strip (s : string) : string := rstrip (lstrip s).

(** Truth value of a [str]: the empty string is falsy. *)
Definition truthy (s : string) : bool :=
  match s with
  | EmptyString => false
  | String _ _ => true
  end.

(** Whether every character of [s] is whitespace. *)
Fixpoint all_space (s : string) : bool :=
  match s with
  | EmptyString => true
  | String c s' => is_space c && all_space s'
  end.

Definition starts_with_space (s : string) : bool :=
  match s with
  | EmptyString => false
  | String c _ => is_space c
  end.

Fixpoint ends_with_space (s : string) : bool :=
  match s with
  | EmptyString => false
  | String c EmptyString => is_space c
  | String _ s' => ends_with_space s'
  end.

End Str.

(** ** ElementTree elements and the ElementPath subset used *)

Module ET.

(** An [xml.etree.ElementTree.Element]: its tag in Clark notation
    ([{uri}local]), its direct text ([None] when there is none) and
    its child elements in document order.  Attributes and tails are
    never read by the program. *)
Inductive Element : Type :=
| Elem (tag : string) (text : option string) (children : list Element).

Definition tag (e : Element) : string :=
  match e with Elem t _ _ => t end.

Definition text (e : Element) : option string :=
  match e with Elem _ t _ => t end.

Definition children (e : Element) : list Element :=
  match e with Elem _ _ c => c end.

(** [Element.iter(tag)]: the element itself and all its descendants,
    in document order, that carry the tag. *)
Fixpoint iter (t : string) (e : Element) : list Element :=
  match e with
  | Elem t' _ cs =>
      (if String.eqb t' t then [e] else []) ++ flat_map (iter t) cs
  end.

(** The three selector steps that the path of the program compiles
    to: [prepare_self], [prepare_descendant] and [prepare_child] of
    ElementPath, for a tag that is not a wildcard. *)
Inductive step : Type :=
| Self
| Descendant (t : string)
| Child (t : string).

(** [for e in elem.iter(tag): if e is not elem: yield e].  The element
    itself is the head of [iter] exactly when its own tag matches, and
    it is dropped there. *)
Definition descendants (t : string) (e : Element) : list Element :=
  flat_map (iter t) (children e).

Definition select (s : step) (result : list Element) : list Element :=
  match s with
  | Self => result
  | Descendant t => flat_map (descendants t) result
  | Child t =>
      flat_map (fun elem => filter (fun e => String.eqb (tag e) t) (children elem))
               result
  end.

(** [iterfind]: the selectors applied in turn, starting from the
    one-element list of the context element. *)
Definition iterfind (elem : Element) (selector : list step) : list Element :=
  fold_left (fun result s => select s result) selector [elem].

(** [find]: the first element of [iterfind], or [None]. *)
Definition find (elem : Element) (selector : list step) : option Element :=
  match iterfind elem selector with
  | [] => None
  | e :: _ => Some e
  end.

(** What [xpath_tokenizer] makes of a prefixed name under a namespace
    map that binds the prefix to [uri]. *)
Definition qname (uri local : string) : string :=
  ("{" ++ uri ++ "}" ++ local)%string.

End ET.

(** ** The filesystem and the calls that read it *)

Module FS.

(** A path is its sequence of components, as [pathlib] keeps it in
    [parts]; the components are plain entry names and the path is
    resolved from the top of the modelled tree.  [str(path)] and
    [Path(str)] are the identity on this representation. *)
Definition path : Type := list string.

(** [path / name]. *)
Definition joinpath (p : path) (name : string) : path := p ++ [name].

(** What [ET.parse] makes of the bytes of a regular file. *)
Inductive content : Type :=
| WellFormed (root : ET.Element)
| Malformed.

(** A filesystem entry.  A regular file has a read permission; a
    directory has a read permission (listing it) and a search
    permission (reaching its entries), and lists its entries in the
    order in which [os.scandir] enumerates them. *)
Inductive node : Type :=
| File (readable : bool) (data : content)
| Dir (readable searchable : bool) (entries : list (string * node)).

Inductive errno : Type := ENOENT | ENOTDIR | EACCES.

Fixpoint lookup (name : string) (entries : list (string * node)) : option node :=
  match entries with
  | [] => None
  | (n, e) :: rest => if String.eqb n name then Some e else lookup name rest
  end.

(** [os.stat]: walk the components down from the top.  The errors
    modelled are those of a missing entry, of a file used as a
    directory and of a refused search; names and paths are taken to be
    within the length limits of the system, whose own error
    ([ENAMETOOLONG]) is not part of the model. *)
Fixpoint stat (fs : node) (p : path) : errno + node :=
  match p with
  | [] => inr fs
  | name :: p' =>
      match fs with
      | File _ _ => inl ENOTDIR
      | Dir _ searchable entries =>
          if searchable then
            match lookup name entries with
            | Some e => stat e p'
            | None => inl ENOENT
            end
          else inl EACCES
      end
  end.

Definition is_directory (n : node) : bool :=
  match n with
  | Dir _ _ _ => true
  | File _ _ => false
  end.

(** [os.path.exists]: [False] on every [OSError] of [os.stat]. *)
Definition os_path_exists (fs : node) (p : path) : bool :=
  match stat fs p with
  | inr _ => true
  | inl _ => false
  end.

(** [pathlib.Path.exists]: [ENOENT] and [ENOTDIR] are ignored, any
    other [OSError] of [os.stat] is raised again; [EACCES] is raised
    as [PermissionError]. *)
Definition Path_exists (fs : node) (p : path) : result bool :=
  match stat fs p with
  | inr _ => Ok true
  | inl ENOENT | inl ENOTDIR => Ok false
  | inl EACCES => Raise PermissionError
  end.

(** [pathlib.Path.is_dir], with the same treatment of errors. *)
Definition Path_is_dir (fs : node) (p : path) : result bool :=
  match stat fs p with
  | inr n => Ok (is_directory n)
  | inl ENOENT | inl ENOTDIR => Ok false
  | inl EACCES => Raise PermissionError
  end.

(** [ET.parse(filename).getroot()]: open the file for reading, read and
    parse it.  Opening needs the read permission of the entry; an open
    directory cannot be read. *)
Definition ET_parse (fs : node) (filename : path) : result ET.Element :=
  match stat fs filename with
  | inl ENOENT => Raise FileNotFoundError
  | inl ENOTDIR => Raise NotADirectoryError
  | inl EACCES => Raise PermissionError
  | inr (Dir false _ _) => Raise PermissionError
  | inr (Dir true _ _) => Raise IsADirectoryError
  | inr (File false _) => Raise PermissionError
  | inr (File true Malformed) => Raise ParseError
  | inr (File true (WellFormed root)) => Ok root
  end.

(** [_RecursiveWildcardSelector._iterate_directories]: the directory
    itself, then, entry after entry, the directories below it.  [n] is
    the node that [parent_path] names and [ok] tells whether every
    directory above it can be searched; [os.scandir(parent_path)]
    raises [PermissionError] unless [ok] holds and the directory can be
    read, and the generator then ends quietly.  The tree is taken to be
    shallower than the recursion limit of the interpreter, whose own
    error ([RecursionError]) is not part of the model. *)
Fixpoint iterate_directories (ok : bool) (parent_path : path) (n : node)
  : list path :=
  parent_path ::
  match n with
  | File _ _ => []
  | Dir readable searchable entries =>
      if ok && readable then
        flat_map
          (fun entry =>
             match entry with
             | (name, child) =>
                 match child with
                 | Dir _ _ _ =>
                     iterate_directories searchable (joinpath parent_path name) child
                 | File _ _ => []
                 end
             end)
          entries
      else []
  end.

(** [_PreciseSelector._select_from] followed by the terminating
    selector: the child called [name] when [exists] says so; a
    [PermissionError] of [exists] (the only exception it raises) ends
    the generator quietly. *)
Definition precise_select (fs : node) (name : string) (parent_path : path)
  : list path :=
  let p := joinpath parent_path name in
  match Path_exists fs p with
  | Ok true => [p]
  | Ok false => []
  | Raise _ => []
  end.

Definition path_eqb (p q : path) : bool :=
  if list_eq_dec string_dec p q then true else false.

(** The [yielded] set of [_RecursiveWildcardSelector._select_from]: a
    path is yielded the first time only. *)
Fixpoint unique (yielded : list path) (l : list path) : list path :=
  match l with
  | [] => []
  | p :: l' =>
      if existsb (path_eqb p) yielded then unique yielded l'
      else p :: unique (p :: yielded) l'
  end.

(** [Path.rglob(name)] for a name without wildcards, that is the
    selector [**] followed by the precise selector of [name]:
    [select_from] gives nothing unless the path is a directory (and
    that test can raise), then every directory of the subtree is asked
    for its child [name]. *)
Definition rglob (fs : node) (self : path) (name : string) : result (list path) :=
  d <- Path_is_dir fs self ;;
  if d then
    match stat fs self with
    | inr n =>
        Ok (unique [] (flat_map (precise_select fs name)
                                (iterate_directories true self n)))
    | inl _ => Ok []
    end
  else Ok [].

End FS.

Import FS.

(** ** The program *)

(** The namespace map [ns] of the constructor and the path
    [.//di:discinfo/di:title/di:name] as ElementPath compiles it. *)
Definition ns_di : string := "urn:BDA:bdmv;discinfo".

Definition title_path : list ET.step :=
  [ET.Self; ET.Descendant (ET.qname ns_di "discinfo");
   ET.Child (ET.qname ns_di "title"); ET.Child (ET.qname ns_di "name")].

(** The attributes of a [BDMTMetadata] object. *)
Record BDMTMetadata : Type := mkBDMTMetadata {
  filename : path;
  disc_title : option string
}.

Definition set_disc_title (t : option string) (self : BDMTMetadata)
  : BDMTMetadata :=
  {| filename := filename self; disc_title := t |}.

(** Lines 41-45: the assignment guarded by the two tests. *)
Definition store_title (title_node : option ET.Element) (self : BDMTMetadata)
  : BDMTMetadata :=
  match title_node with
  | Some node =>
      match ET.text node with
      | Some txt =>
          if Str.truthy txt then
            let title := Str.strip txt in
            if Str.truthy title && negb (String.eqb (Str.lower title) "blu-ray")
            then set_disc_title (Some title) self
            else self
          else self
      | None => self
      end
  | None => self
  end.

(** The body of the [try] of the constructor (lines 32-45), run on the
    object under construction: the object as the body leaves it, and
    how the body ends. *)
Definition init_body (fs : node) (fname : path) (self : BDMTMetadata)
  : BDMTMetadata * result unit :=
  match ET_parse fs fname with
  | Raise e => (self, Raise e)
  | Ok root => (store_title (ET.find root title_path) self, Ok tt)
  end.

(** [BDMTMetadata.__init__]: the existence test, the two assignments,
    then the [try] whose handler resets the title. *)
Definition BDMTMetadata_init (fs : node) (fname : path)
  : result BDMTMetadata :=
  if negb (os_path_exists fs fname) then Raise FileNotFoundError
  else
    let self := {| filename := fname; disc_title := None |} in
    match init_body fs fname self with
    | (self, Ok _) => Ok self
    | (self, Raise _) => Ok (set_disc_title None self)
    end.

(** [BDMTMetadata.__repr__]: [self.disc_title or "Unknown Title"]
    takes the title unless it is [None] or the empty string, and the
    f-string puts it between the two fixed parts. *)
Definition BDMTMetadata_repr (self : BDMTMetadata) : string :=
  let title :=
    match disc_title self with
    | Some t => if Str.truthy t then t else "Unknown Title"
    | None => "Unknown Title"
    end in
  ("<BDMTMetadata title='" ++ title ++ "'>")%string.

(** [find_bdmt_eng_file].  Each [for ... in rglob(...): return] takes
    the first path that the generator yields, if any. *)
Definition find_bdmt_eng_file (fs : node) (directory : path)
  : result (option path) :=
  let directory_path := directory in
  let bdmt_path := joinpath (joinpath (joinpath directory_path "BDMV") "META")
                            "bdmt_eng.xml" in
  found <- Path_exists fs bdmt_path ;;
  if found then Ok (Some bdmt_path) else
  let bdmt_path := joinpath (joinpath directory_path "META") "bdmt_eng.xml" in
  found <- Path_exists fs bdmt_path ;;
  if found then Ok (Some bdmt_path) else
  lower_matches <- rglob fs directory_path "bdmt_eng.xml" ;;
  match lower_matches with
  | p :: _ => Ok (Some p)
  | [] =>
      upper_matches <- rglob fs directory_path "BDMT_ENG.XML" ;;
      match upper_matches with
      | p :: _ => Ok (Some p)
      | [] => Ok None
      end
  end.

(** [get_disc_title].  [str(path)] is never the empty string, so
    [not bdmt_file] holds for [None] only. *)
Definition get_disc_title (fs : node) (directory : path)
  : result (option string) :=
  try_except
    (bdmt_file <- find_bdmt_eng_file fs directory ;;
     match bdmt_file with
     | None => Ok None
     | Some f =>
         metadata <- BDMTMetadata_init fs f ;;
         Ok (disc_title metadata)
     end)
    (fun _ => Ok None).

(** [get_disc_title] when the filesystem may change between the search
    and the construction of the object: [fs] is the state that
    [find_bdmt_eng_file] reads, [fs'] the one that the constructor
    reads. *)
Definition get_disc_title_between (fs fs' : node) (directory : path)
  : result (option string) :=
  try_except
    (bdmt_file <- find_bdmt_eng_file fs directory ;;
     match bdmt_file with
     | None => Ok None
     | Some f =>
         metadata <- BDMTMetadata_init fs' f ;;
         Ok (disc_title metadata)
     end)
    (fun _ => Ok None).

(** ** Specifications in the words of the documentation *)

(** [t] is [s] trimmed: [s] is [t] between two runs of whitespace, and
    [t] neither starts nor ends with whitespace. *)
Definition trimmed_of (s t : string) : Prop :=
  exists l r : string,
    s = (l ++ t ++ r)%string /\
    Str.all_space l = true /\ Str.all_space r = true /\
    Str.starts_with_space t = false /\ Str.ends_with_space t = false.

(** Equality of two strings under case-insensitive comparison. *)
Definition caseless_eqb (s t : string) : bool :=
  String.eqb (Str.lower s) (Str.lower t).

(** The title that the text of the title element stands for: absent
    when the text is missing or empty after trimming, absent when the
    trimmed text is the placeholder, the trimmed text otherwise. *)
Definition title_of_text (txt : option string) : option string :=
  match txt with
  | None => None
  | Some s =>
      let t := Str.strip s in
      if String.eqb t "" then None
      else if caseless_eqb t "blu-ray" then None
      else Some t
  end.

(** What every title that the program hands out satisfies. *)
Definition proper_title (t : string) : Prop :=
  t <> "" /\
  Str.starts_with_space t = false /\ Str.ends_with_space t = false /\
  caseless_eqb t "blu-ray" = false.

(** [below d e]: [d] is a proper descendant of [e]. *)
Inductive below (d : ET.Element) : ET.Element -> Prop :=
| below_child e : In d (ET.children e) -> below d e
| below_deeper e c : In c (ET.children e) -> below d c -> below d e.

(** [n] is reached from a [discinfo] element [d] through a [title]
    child and a [name] child of that, all three in the namespace. *)
Definition title_name_under (d n : ET.Element) : Prop :=
  ET.tag d = ET.qname ns_di "discinfo" /\
  exists t, In t (ET.children d) /\ ET.tag t = ET.qname ns_di "title" /\
            In n (ET.children t) /\ ET.tag n = ET.qname ns_di "name".

(** The path is present below the root: its [discinfo] is a proper
    descendant of the root. *)
Definition path_below_root (root n : ET.Element) : Prop :=
  exists d, below d root /\ title_name_under d n.

(** The path is present anywhere in the tree: its [discinfo] is the
    root or a descendant of the root. *)
Definition path_anywhere (root n : ET.Element) : Prop :=
  exists d, (d = root \/ below d root) /\ title_name_under d n.

(** The two exact candidates of [find_bdmt_eng_file]. *)
Definition std_path (d : path) : path :=
  joinpath (joinpath (joinpath d "BDMV") "META") "bdmt_eng.xml".

Definition alt_path (d : path) : path :=
  joinpath (joinpath d "META") "bdmt_eng.xml".

(** [os.stat] is refused on the way to [p]: a directory that has to
    be searched does not grant it. *)
Definition denied (fs : node) (p : path) : bool :=
  match stat fs p with
  | inl EACCES => true
  | _ => false
  end.




(** The paths that [rglob] yields, when it does not raise. *)
Definition search (fs : node) (d : path) (name : string) : list path :=
  match rglob fs d name with
  | Ok l => l
  | Raise _ => []
  end.

(** [Path.is_file]: the path leads to a regular file. *)
Definition is_file (fs : node) (p : path) : bool :=
  match stat fs p with
  | inr (File _ _) => true
  | _ => false
  end.

(** The object shows [Unknown Title]: it has no title, or its title
    is that very text. *)
Definition shows_unknown (m : BDMTMetadata) : Prop :=
  disc_title m = None \/ disc_title m = Some "Unknown Title".

(** ** Induction over the two nested trees *)

Section ElementInduction.

Variable P : ET.Element -> Prop.
Hypothesis step : forall t x cs, Forall P cs -> P (ET.Elem t x cs).

Fixpoint Element_nested_ind (e : ET.Element) : P e :=
  match e with
  | ET.Elem t x cs =>
      step t x cs
        ((fix all (l : list ET.Element) : Forall P l :=
            match l with
            | [] => Forall_nil P
            | c :: l' => Forall_cons c (Element_nested_ind c) (all l')
            end) cs)
  end.

End ElementInduction.

Section NodeInduction.

Variable P : node -> Prop.
Hypothesis file_case : forall r data, P (File r data).
Hypothesis dir_case :
  forall r x entries, Forall (fun e => P (snd e)) entries -> P (Dir r x entries).

Fixpoint node_nested_ind (n : node) : P n :=
  match n with
  | File r data => file_case r data
  | Dir r x entries =>
      dir_case r x entries
        ((fix all (l : list (string * node)) : Forall (fun e => P (snd e)) l :=
            match l with
            | [] => Forall_nil _
            | e :: l' => Forall_cons e (node_nested_ind (snd e)) (all l')
            end) entries)
  end.

End NodeInduction.

(** ** Sample documents and filesystems *)

(** A filesystem in which the standard path leads to a directory. *)
Definition dir_at_std_path : node :=
  Dir true true
    [("disc", Dir true true
        [("BDMV", Dir true true
            [("META", Dir true true [("bdmt_eng.xml", Dir true true [])])])])].

(** A filesystem in which the alternative path leads to a directory. *)
Definition dir_at_alt_path : node :=
  Dir true true
    [("disc", Dir true true
        [("META", Dir true true [("bdmt_eng.xml", Dir true true [])])])].



(** A filesystem whose directory [disc] exists and grants neither
    listing nor search. *)
Definition closed_disc : node :=
  Dir true true [("disc", Dir false false [("BDMV", Dir true true [])])].

(** The descriptor of a disc: the [discinfo] element below the root
    [disclib], with the given text in its title name. *)
Definition descriptor (txt : option string) : ET.Element :=
  ET.Elem "{urn:BDA:bdmv;disclib}disclib" None
    [ET.Elem (ET.qname ns_di "discinfo") None
       [ET.Elem (ET.qname ns_di "title") None
          [ET.Elem (ET.qname ns_di "name") txt []]]].

(** A disc that keeps this descriptor at the alternative path. *)
Definition disc_with (txt : option string) : node :=
  Dir true true
    [("disc", Dir true true
        [("META", Dir true true
            [("bdmt_eng.xml", File true (WellFormed (descriptor txt)))])])].

(** A disc laid out in the standard way, with [f] as the entry at the
    standard path. *)
Definition disc_of_file (f : node) : node :=
  Dir true true
    [("disc", Dir true true
        [("BDMV", Dir true true [("META", Dir true true [("bdmt_eng.xml", f)])])])].

(** A descriptor whose [discinfo] element is the root of the document. *)
Definition discinfo_as_root : ET.Element :=
  ET.Elem (ET.qname ns_di "discinfo") None
    [ET.Elem (ET.qname ns_di "title") None
       [ET.Elem (ET.qname ns_di "name") (Some "MATRIX") []]].

(** ** Facts about [strip] *)

Section StripFacts.

Import Str.

Lemma lstrip_split (s : string) :
  exists l, s = (l ++ lstrip s)%string /\ all_space l = true.
Proof.
  induction s as [|c s IH]; simpl.
  - exists ""; auto.
  - destruct (is_space c) eqn:Hc.
    + destruct IH as (l & Hs & Hl).
      exists (String c l); simpl. rewrite Hc, Hl.
      split; [f_equal; exact Hs | reflexivity].
    + exists ""; auto.
Qed.

Lemma lstrip_no_leading (s : string) : starts_with_space (lstrip s) = false.
Proof.
  induction s as [|c s IH]; simpl; auto.
  destruct (is_space c) eqn:Hc; simpl; auto.
Qed.

Lemma rstrip_split (s : string) :
  exists r, s = (rstrip s ++ r)%string /\ all_space r = true.
Proof.
  induction s as [|c s IH]; simpl.
  - exists ""; auto.
  - destruct IH as (r & Hs & Hr).
    destruct (rstrip s) as [|c' t] eqn:Ht.
    + destruct (is_space c) eqn:Hc.
      * exists (String c r); simpl in *. rewrite Hc, Hr.
        split; [f_equal; exact Hs | reflexivity].
      * exists r; simpl in *. split; [f_equal; exact Hs | exact Hr].
    + exists r. simpl in *. split; [f_equal; exact Hs | exact Hr].
Qed.

Lemma rstrip_no_trailing (s : string) : ends_with_space (rstrip s) = false.
Proof.
  induction s as [|c s IH]; simpl; auto.
  destruct (rstrip s) as [|c' t] eqn:Ht.
  - destruct (is_space c) eqn:Hc; simpl; auto.
  - exact IH.
Qed.

Lemma rstrip_keeps_head (s : string) :
  starts_with_space s = false -> starts_with_space (rstrip s) = false.
Proof.
  destruct s as [|c s]; simpl; auto.
  intros Hc. destruct (rstrip s); [rewrite Hc|]; simpl; auto.
Qed.

Lemma strip_trimmed (s : string) : trimmed_of s (strip s).
Proof.
  unfold trimmed_of, strip.
  destruct (lstrip_split s) as (l & Hl & Hls).
  destruct (rstrip_split (lstrip s)) as (r & Hr & Hrs).
  exists l, r. repeat split; auto.
  - rewrite <- Hr. exact Hl.
  - apply rstrip_keeps_head, lstrip_no_leading.
  - apply rstrip_no_trailing.
Qed.

Lemma truthy_eqb_empty (s : string) : truthy s = negb (String.eqb s "").
Proof. destruct s; reflexivity. Qed.

Lemma strip_empty : strip "" = "".
Proof. reflexivity. Qed.

End StripFacts.

Section StripUnique.

Import Str.

Lemma lstrip_all_space (s : string) : all_space s = true -> lstrip s = "".
Proof.
  induction s as [|c s IH]; simpl; auto.
  destruct (is_space c); simpl; auto. discriminate.
Qed.

Lemma lstrip_app_space (l s : string) :
  all_space l = true -> lstrip (l ++ s) = lstrip s.
Proof.
  induction l as [|c l IH]; simpl; auto.
  destruct (is_space c); simpl; auto. discriminate.
Qed.

Lemma rstrip_all_space (s : string) : all_space s = true -> rstrip s = "".
Proof.
  induction s as [|c s IH]; simpl; auto.
  destruct (is_space c); simpl; try discriminate.
  intros H. rewrite (IH H). reflexivity.
Qed.

Lemma rstrip_app_space (t r : string) :
  all_space r = true -> rstrip (t ++ r) = rstrip t.
Proof.
  intros Hr. induction t as [|c t IH]; simpl.
  - apply rstrip_all_space, Hr.
  - rewrite IH. reflexivity.
Qed.

Lemma rstrip_id (t : string) : ends_with_space t = false -> rstrip t = t.
Proof.
  induction t as [|c t IH]; auto.
  destruct t as [|c' t].
  - simpl. intros ->. reflexivity.
  - intros H. change (ends_with_space (String c' t) = false) in H.
    change (rstrip (String c (String c' t)))
      with (match rstrip (String c' t) with
            | EmptyString =>
                if is_space c then EmptyString else String c EmptyString
            | u => String c u
            end).
    rewrite (IH H). reflexivity.
Qed.

(** Trimming has one result only, the one that [strip] computes. *)
Lemma trimmed_unique (s t : string) : trimmed_of s t -> t = strip s.
Proof.
  intros (l & r & -> & Hl & Hr & Hhead & Htail).
  unfold strip. rewrite lstrip_app_space by exact Hl.
  destruct t as [|c t].
  - simpl. rewrite (lstrip_all_space r Hr). reflexivity.
  - simpl in Hhead. simpl lstrip. rewrite Hhead.
    change (String c (t ++ r)) with (String c t ++ r)%string.
    rewrite rstrip_app_space by exact Hr.
    symmetry. apply rstrip_id, Htail.
Qed.

End StripUnique.

Lemma below_inv (d e : ET.Element) :
  below d e <-> exists c, In c (ET.children e) /\ (d = c \/ below d c).
Proof.
  split.
  - intros [e' H | e' c Hc Hd]; [exists d | exists c]; auto.
  - intros (c & Hc & [-> | Hd]); [apply below_child | eapply below_deeper]; eauto.
Qed.

Lemma in_iter (t : string) (d e : ET.Element) :
  In d (ET.iter t e) <-> (d = e \/ below d e) /\ ET.tag d = t.
Proof.
  revert d. induction e as [t' x cs IH] using Element_nested_ind. intros d.
  simpl. rewrite in_app_iff, in_flat_map. split.
  - intros [H | (c & Hc & H)].
    + destruct (String.eqb t' t) eqn:E; [|contradiction].
      destruct H as [<- | []]. apply String.eqb_eq in E. simpl. auto.
    + rewrite Forall_forall in IH. apply (IH c Hc) in H.
      destruct H as [H Ht]. split; [right | exact Ht].
      apply below_inv. exists c; simpl; auto.
  - intros [[-> | H] Ht].
    + left. simpl in Ht. subst t'. rewrite String.eqb_refl. left; reflexivity.
    + right. apply below_inv in H. destruct H as (c & Hc & H). simpl in Hc.
      exists c. split; [exact Hc|]. rewrite Forall_forall in IH.
      apply (IH c Hc). auto.
Qed.

Lemma in_descendants (t : string) (d e : ET.Element) :
  In d (ET.descendants t e) <-> below d e /\ ET.tag d = t.
Proof.
  unfold ET.descendants. rewrite in_flat_map. split.
  - intros (c & Hc & H). apply in_iter in H. destruct H as [H Ht].
    split; [|exact Ht]. apply below_inv. eauto.
  - intros [H Ht]. apply below_inv in H. destruct H as (c & Hc & H).
    exists c. split; [exact Hc|]. apply in_iter. auto.
Qed.

Lemma in_iterfind_title_path (root n : ET.Element) :
  In n (ET.iterfind root title_path) <-> path_below_root root n.
Proof.
  unfold ET.iterfind, title_path, path_below_root, title_name_under. simpl.
  rewrite app_nil_r, in_flat_map. split.
  - intros (t & Ht & Hn). apply filter_In in Hn. destruct Hn as [Hn En].
    apply in_flat_map in Ht. destruct Ht as (d & Hd & Ht).
    apply filter_In in Ht. destruct Ht as [Ht Et].
    apply in_descendants in Hd. destruct Hd as [Hd Ed].
    apply String.eqb_eq in En, Et.
    exists d. repeat split; auto. exists t. auto.
  - intros (d & Hd & Ed & t & Ht & Et & Hn & En).
    exists t. split.
    + apply in_flat_map. exists d. split.
      * apply in_descendants. auto.
      * apply filter_In. split; [exact Ht | apply String.eqb_eq, Et].
    + apply filter_In. split; [exact Hn | apply String.eqb_eq, En].
Qed.

(** ** The filesystem calls *)

Section StatFacts.

Lemma stat_app (fs : node) (p q : path) :
  stat fs (p ++ q) =
  match stat fs p with
  | inr n => stat n q
  | inl e => inl e
  end.
Proof.
  revert fs. induction p as [|c p IH]; intros fs; simpl; auto.
  destruct fs as [r data | r x entries]; auto.
  destruct x; auto. destruct (lookup c entries); auto.
Qed.

Lemma Path_exists_cases (fs : node) (p : path) :
  Path_exists fs p =
  if denied fs p then Raise PermissionError else Ok (os_path_exists fs p).
Proof.
  unfold Path_exists, denied, os_path_exists.
  destruct (stat fs p) as [[]|]; reflexivity.
Qed.

Lemma denied_below (fs : node) (d q : path) :
  denied fs d = true -> denied fs (d ++ q) = true.
Proof.
  unfold denied. rewrite stat_app.
  destruct (stat fs d) as [[]|]; auto; discriminate.
Qed.

Lemma missing_below (fs : node) (d q : path) :
  os_path_exists fs d = false -> os_path_exists fs (d ++ q) = false.
Proof.
  unfold os_path_exists. rewrite stat_app.
  destruct (stat fs d); auto; discriminate.
Qed.

Lemma std_path_app (d : path) : std_path d = d ++ ["BDMV"; "META"; "bdmt_eng.xml"].
Proof. unfold std_path, joinpath. rewrite <- !app_assoc. reflexivity. Qed.

Lemma alt_path_app (d : path) : alt_path d = d ++ ["META"; "bdmt_eng.xml"].
Proof. unfold alt_path, joinpath. rewrite <- !app_assoc. reflexivity. Qed.


End StatFacts.

Section SearchFacts.

Lemma unique_incl (yielded l : list path) (p : path) :
  In p (unique yielded l) -> In p l.
Proof.
  revert yielded. induction l as [|q l IH]; intros yielded; simpl; auto.
  destruct (existsb (path_eqb q) yielded).
  - eauto.
  - intros [H | H]; eauto.
Qed.

Lemma unique_head (l : list path) :
  l <> [] -> unique [] l <> [].
Proof. destruct l; simpl; congruence. Qed.

Lemma in_precise_select (fs : node) (name : string) (sp p : path) :
  In p (precise_select fs name sp) <->
  p = joinpath sp name /\ Path_exists fs p = Ok true.
Proof.
  unfold precise_select.
  destruct (Path_exists fs (joinpath sp name)) as [[]|] eqn:E; simpl; split.
  - intros [<- | []]. auto.
  - intros [-> _]. auto.
  - intros [].
  - intros [-> H]. congruence.
  - intros [].
  - intros [-> H]. congruence.
Qed.

Lemma iterate_directories_prefix (ok : bool) (q : path) (n : node) :
  forall sp, In sp (iterate_directories ok q n) -> exists rel, sp = q ++ rel.
Proof.
  revert ok q. induction n as [r data | r x entries IH] using node_nested_ind;
    intros ok q sp Hsp.
  - destruct Hsp as [<- | []]. exists []. symmetry; apply app_nil_r.
  - destruct Hsp as [<- | H].
    + exists []. symmetry; apply app_nil_r.
    + destruct (ok && r); [|contradiction].
      apply in_flat_map in H. destruct H as ([name child] & Hin & H).
      rewrite Forall_forall in IH. specialize (IH _ Hin). simpl in IH.
      destruct child as [|r' x' es']; [contradiction|].
      apply IH in H. destruct H as [rel ->].
      unfold joinpath. rewrite <- app_assoc. eauto.
Qed.



Lemma rglob_total (fs : node) (d : path) (name : string) :
  denied fs d = false -> rglob fs d name = Ok (search fs d name).
Proof.
  unfold search, rglob, Path_is_dir, denied.
  destruct (stat fs d) as [[]|n]; try discriminate; simpl; auto.
  destruct (is_directory n); auto.
Qed.

Lemma search_sound (fs : node) (d : path) (name : string) (p : path) :
  In p (search fs d name) ->
  exists rel, p = joinpath (d ++ rel) name /\ os_path_exists fs p = true.
Proof.
  unfold search, rglob, Path_is_dir.
  destruct (stat fs d) as [[]|n]; simpl; try contradiction.
  destruct (is_directory n); simpl; [|contradiction].
  intros H. apply unique_incl, in_flat_map in H. destruct H as (sp & Hsp & H).
  apply in_precise_select in H. destruct H as [-> H].
  apply iterate_directories_prefix in Hsp. destruct Hsp as [rel ->].
  exists rel. split; [reflexivity|].
  rewrite Path_exists_cases in H. destruct (denied fs _); congruence.
Qed.



End SearchFacts.

(** ** [find_bdmt_eng_file] *)

Section Locator.

Variable fs : node.
Variable d : path.

Lemma denied_std_of_dir : denied fs d = true -> denied fs (std_path d) = true.
Proof. rewrite std_path_app. apply denied_below. Qed.

(** The function, call by call, with every outcome of the two
    existence tests spelt out. *)
Lemma find_cases :
  find_bdmt_eng_file fs d =
  if denied fs (std_path d) then Raise PermissionError
  else if os_path_exists fs (std_path d) then Ok (Some (std_path d))
  else if denied fs (alt_path d) then Raise PermissionError
  else if os_path_exists fs (alt_path d) then Ok (Some (alt_path d))
  else Ok match search fs d "bdmt_eng.xml" with
          | p :: _ => Some p
          | [] => match search fs d "BDMT_ENG.XML" with
                  | p :: _ => Some p
                  | [] => None
                  end
          end.
Proof.
  unfold find_bdmt_eng_file. fold (std_path d). fold (alt_path d).
  rewrite !Path_exists_cases.
  destruct (denied fs (std_path d)) eqn:Hs; [reflexivity|]. simpl.
  destruct (os_path_exists fs (std_path d)); [reflexivity|].
  destruct (denied fs (alt_path d)); [reflexivity|]. simpl.
  destruct (os_path_exists fs (alt_path d)); [reflexivity|].
  assert (Hd : denied fs d = false).
  { destruct (denied fs d) eqn:E; auto.
    apply denied_std_of_dir in E. congruence. }
  rewrite !rglob_total by exact Hd. simpl.
  destruct (search fs d "bdmt_eng.xml"); [|reflexivity].
  simpl. destruct (search fs d "BDMT_ENG.XML"); reflexivity.
Qed.

Lemma last_joinpath (p : path) (name : string) : last (joinpath p name) "" = name.
Proof. apply last_last. Qed.

End Locator.



(** A lowercase file three levels down wins over an uppercase file at
    the top of the directory. *)
Example lowercase_wins_over_shallower_uppercase :
  let f := File true Malformed in
  let fs :=
    Dir true true
      [("disc", Dir true true
          [("BDMT_ENG.XML", f);
           ("a", Dir true true [("b", Dir true true [("bdmt_eng.xml", f)])])])] in
  find_bdmt_eng_file fs ["disc"] = Ok (Some ["disc"; "a"; "b"; "bdmt_eng.xml"]).
Proof. reflexivity. Qed.


(** C6 does not hold: the entry at the standard path (and likewise at
    the alternative path) is a directory, not a file, and the function
    returns it all the same. *)
Lemma exact_checks_accept_a_directory :
  (is_file dir_at_std_path (std_path ["disc"]) = false /\
   find_bdmt_eng_file dir_at_std_path ["disc"] = Ok (Some (std_path ["disc"]))) /\
  (is_file dir_at_alt_path (alt_path ["disc"]) = false /\
   find_bdmt_eng_file dir_at_alt_path ["disc"] = Ok (Some (alt_path ["disc"]))).
Proof. repeat split. Qed.

(** C6, amended. Steps 1 and 2 test the two candidate paths for
    existence as a filesystem entry of any kind, file or directory:
    whatever entry [os.stat] finds at the standard path, that path is
    returned; and when there is nothing at the standard path, whatever
    entry it finds at the alternative path, that path is returned. *)
Theorem exact_checks_accept_any_entry (fs : node) (d : path) (n : node) :
  (stat fs (std_path d) = inr n ->
   find_bdmt_eng_file fs d = Ok (Some (std_path d))) /\
  (denied fs (std_path d) = false ->
   os_path_exists fs (std_path d) = false ->
   stat fs (alt_path d) = inr n ->
   find_bdmt_eng_file fs d = Ok (Some (alt_path d))).
Proof.
  split.
  - intros H. rewrite find_cases. unfold denied, os_path_exists. rewrite H.
    reflexivity.
  - intros Hs Es H. rewrite find_cases, Hs, Es.
    unfold denied, os_path_exists. rewrite H. reflexivity.
Qed.

Lemma exact_checks_accept_any_entry_witness :
  find_bdmt_eng_file dir_at_std_path ["disc"] = Ok (Some (std_path ["disc"])) /\
  find_bdmt_eng_file dir_at_alt_path ["disc"] = Ok (Some (alt_path ["disc"])).
Proof.
  split.
  - apply (proj1 (exact_checks_accept_any_entry dir_at_std_path ["disc"]
                    (Dir true true []))).
    reflexivity.
  - apply (proj2 (exact_checks_accept_any_entry dir_at_alt_path ["disc"]
                    (Dir true true []))); reflexivity.
Defined.






(** A directory that cannot be listed is passed over and the search
    goes on: the match below it is not seen, the one below its sibling
    is found. *)
Example unlistable_directory_is_skipped :
  let f := File true Malformed in
  let fs :=
    Dir true true
      [("disc", Dir true true
          [("locked", Dir false true
              [("inner", Dir true true [("bdmt_eng.xml", f)])]);
           ("open", Dir true true
              [("deep", Dir true true [("bdmt_eng.xml", f)])])])] in
  find_bdmt_eng_file fs ["disc"]
  = Ok (Some ["disc"; "open"; "deep"; "bdmt_eng.xml"]).
Proof. reflexivity. Qed.

(** ** The constructor of [BDMTMetadata] *)

Section Extractor.

Lemma parse_ok_exists (fs : node) (p : path) (root : ET.Element) :
  ET_parse fs p = Ok root -> os_path_exists fs p = true.
Proof.
  unfold ET_parse, os_path_exists.
  destruct (stat fs p) as [[]|]; try discriminate. reflexivity.
Qed.

Lemma lower_placeholder : Str.lower "blu-ray" = "blu-ray".
Proof. reflexivity. Qed.

Lemma store_title_spec (node : ET.Element) (p : path) :
  store_title (Some node) {| filename := p; disc_title := None |}
  = {| filename := p; disc_title := title_of_text (ET.text node) |}.
Proof.
  unfold store_title, title_of_text, caseless_eqb.
  destruct (ET.text node) as [s|]; [|reflexivity].
  rewrite lower_placeholder.
  destruct s as [|c s]; [reflexivity|].
  set (t := Str.strip (String c s)). simpl.
  rewrite (truthy_eqb_empty t).
  destruct (String.eqb t ""); simpl; [reflexivity|].
  destruct (String.eqb (Str.lower t) "blu-ray"); reflexivity.
Qed.

Lemma title_of_text_proper (txt : option string) (t : string) :
  title_of_text txt = Some t ->
  proper_title t /\ exists s, txt = Some s /\ t = Str.strip s.
Proof.
  unfold title_of_text. destruct txt as [s|]; [|discriminate].
  destruct (String.eqb (Str.strip s) "") eqn:E; [discriminate|].
  destruct (caseless_eqb (Str.strip s) "blu-ray") eqn:C; [discriminate|].
  intros [= <-]. split; [|eauto].
  destruct (strip_trimmed s) as (l & r & _ & _ & _ & Hh & Ht).
  repeat split; auto.
  intros H. rewrite H in E. discriminate.
Qed.

(** The constructor, outcome by outcome of [os.stat] and of the
    parse. *)
Lemma init_cases (fs : node) (p : path) :
  BDMTMetadata_init fs p =
  if os_path_exists fs p then
    Ok {| filename := p;
          disc_title :=
            match ET_parse fs p with
            | Ok root =>
                match ET.find root title_path with
                | Some node => title_of_text (ET.text node)
                | None => None
                end
            | Raise _ => None
            end |}
  else Raise FileNotFoundError.
Proof.
  unfold BDMTMetadata_init, init_body.
  destruct (os_path_exists fs p); [|reflexivity]. simpl.
  destruct (ET_parse fs p) as [root|e]; [|reflexivity].
  destruct (ET.find root title_path) as [node|]; [|reflexivity].
  rewrite store_title_spec. reflexivity.
Qed.

End Extractor.

(** C2. When the file parses and its title element is found, the
    object is built and its title is the one that the direct text of
    the element stands for: absent when the text is missing or empty
    after trimming, absent when the trimmed text equals [blu-ray]
    under case-insensitive comparison, otherwise the text trimmed of
    leading and trailing whitespace. *)
Theorem disc_title_of_title_text
  (fs : node) (p : path) (root node : ET.Element) :
  ET_parse fs p = Ok root ->
  ET.find root title_path = Some node ->
  exists m,
    BDMTMetadata_init fs p = Ok m /\
    disc_title m = title_of_text (ET.text node) /\
    (forall t, disc_title m = Some t ->
               exists s, ET.text node = Some s /\ trimmed_of s t).
Proof.
  intros Hparse Hfind. rewrite init_cases, (parse_ok_exists _ _ _ Hparse).
  rewrite Hparse, Hfind. eexists. split; [reflexivity|]. simpl.
  split; [reflexivity|].
  intros t Ht. apply title_of_text_proper in Ht.
  destruct Ht as (_ & s & Hs & ->). exists s. split; [exact Hs|].
  apply strip_trimmed.
Qed.

Example title_is_trimmed :
  get_disc_title (disc_with (Some " Inception ")) ["disc"] = Ok (Some "Inception").
Proof. reflexivity. Qed.

Example placeholder_is_dropped :
  get_disc_title (disc_with (Some "Blu-ray")) ["disc"] = Ok None /\
  get_disc_title (disc_with (Some "BLU-RAY")) ["disc"] = Ok None /\
  get_disc_title (disc_with (Some "  blu-Ray ")) ["disc"] = Ok None.
Proof. repeat split. Qed.

Example missing_or_blank_text :
  get_disc_title (disc_with None) ["disc"] = Ok None /\
  get_disc_title (disc_with (Some "")) ["disc"] = Ok None /\
  get_disc_title (disc_with (Some "   ")) ["disc"] = Ok None.
Proof. repeat split. Qed.

Lemma disc_title_of_title_text_witness :
  exists m,
    BDMTMetadata_init (disc_with (Some " Inception ")) (alt_path ["disc"]) = Ok m /\
    disc_title m = title_of_text (Some " Inception ") /\
    (forall t, disc_title m = Some t ->
               exists s, Some " Inception " = Some s /\ trimmed_of s t).
Proof.
  apply (disc_title_of_title_text
           (disc_with (Some " Inception ")) (alt_path ["disc"])
           (descriptor (Some " Inception "))
           (ET.Elem (ET.qname ns_di "name") (Some " Inception ") []));
    reflexivity.
Defined.



Example invalid_xml_gives_no_title :
  get_disc_title (disc_of_file (File true Malformed)) ["disc"] = Ok None /\
  get_disc_title (disc_of_file (File false (WellFormed (descriptor (Some "MATRIX")))))
                 ["disc"] = Ok None /\
  get_disc_title (disc_of_file (File true (WellFormed (descriptor (Some "MATRIX")))))
                 ["disc"] = Ok (Some "MATRIX").
Proof. repeat split. Qed.

(** C10. On a path that leads to a directory the constructor passes the
    existence test, does not raise, and builds an object without a
    title whose [filename] is the path given; and whenever the
    constructor builds an object, on any path and however the parse
    ends, its [filename] is the path given. *)
Theorem init_on_directory (fs : node) (p : path) :
  (forall r x entries,
     stat fs p = inr (Dir r x entries) ->
     os_path_exists fs p = true /\
     BDMTMetadata_init fs p = Ok {| filename := p; disc_title := None |}) /\
  (forall m, BDMTMetadata_init fs p = Ok m -> filename m = p).
Proof.
  split.
  - intros r x entries H. rewrite init_cases.
    unfold os_path_exists, ET_parse. rewrite H. destruct r; auto.
  - intros m. rewrite init_cases.
    destruct (os_path_exists fs p); [|discriminate].
    intros [= <-]. reflexivity.
Qed.

Lemma init_on_directory_witness :
  os_path_exists dir_at_std_path (std_path ["disc"]) = true /\
  BDMTMetadata_init dir_at_std_path (std_path ["disc"])
  = Ok {| filename := std_path ["disc"]; disc_title := None |}.
Proof.
  apply (proj1 (init_on_directory dir_at_std_path (std_path ["disc"]))
           true true []).
  reflexivity.
Defined.

(** C5 does not hold: when [discinfo] is the root element of the
    document, the path is present in the tree and the search of the
    constructor does not see it; the title is absent. *)
Lemma root_discinfo_is_not_found :
  path_anywhere discinfo_as_root (ET.Elem (ET.qname ns_di "name") (Some "MATRIX") []) /\
  ET.find discinfo_as_root title_path = None /\
  get_disc_title (disc_of_file (File true (WellFormed discinfo_as_root))) ["disc"]
  = Ok None.
Proof.
  split; [|split; reflexivity].
  exists discinfo_as_root. split; [left; reflexivity|].
  split; [reflexivity|].
  exists (ET.Elem (ET.qname ns_di "title") None
            [ET.Elem (ET.qname ns_di "name") (Some "MATRIX") []]).
  simpl. auto.
Qed.

(** C5, amended. For every well-formed document the constructor
    searches the proper descendants of the root element for a
    [discinfo] element of the namespace that has a [title] child with a
    [name] child: the element it finds is such a [name], it finds one
    whenever there is one, and if a segment is missing below the root
    the title is absent.  A [discinfo] that is the root element itself
    is not a starting point of the path. *)
Theorem title_path_searched_below_root (root : ET.Element) :
  (forall n, ET.find root title_path = Some n -> path_below_root root n) /\
  (ET.find root title_path = None <-> forall n, ~ path_below_root root n) /\
  (forall fs p,
     ET_parse fs p = Ok root ->
     (forall n, ~ path_below_root root n) ->
     BDMTMetadata_init fs p = Ok {| filename := p; disc_title := None |}).
Proof.
  assert (Hnone : ET.find root title_path = None <->
                  forall n, ~ path_below_root root n).
  { unfold ET.find. split.
    - intros H n Hn. apply in_iterfind_title_path in Hn.
      destruct (ET.iterfind root title_path); [contradiction|discriminate].
    - intros H. destruct (ET.iterfind root title_path) as [|n l] eqn:E; auto.
      exfalso. apply (H n), in_iterfind_title_path. rewrite E. left; reflexivity. }
  split; [|split; [exact Hnone|]].
  - unfold ET.find. intros n H. apply in_iterfind_title_path.
    destruct (ET.iterfind root title_path); [discriminate|].
    injection H as ->. left; reflexivity.
  - intros fs p Hparse H. apply Hnone in H.
    rewrite init_cases, (parse_ok_exists _ _ _ Hparse), Hparse, H. reflexivity.
Qed.

Lemma title_path_searched_below_root_witness :
  path_below_root (descriptor (Some "MATRIX"))
                  (ET.Elem (ET.qname ns_di "name") (Some "MATRIX") []).
Proof.
  apply (proj1 (title_path_searched_below_root (descriptor (Some "MATRIX")))).
  reflexivity.
Defined.

(** ** [get_disc_title] *)

Section Entry.

Lemma init_title_proper (fs : node) (p : path) (m : BDMTMetadata) (t : string) :
  BDMTMetadata_init fs p = Ok m -> disc_title m = Some t -> proper_title t.
Proof.
  rewrite init_cases. destruct (os_path_exists fs p); [|discriminate].
  intros [= <-]. simpl.
  destruct (ET_parse fs p) as [root|]; [|discriminate].
  destruct (ET.find root title_path) as [node|]; [|discriminate].
  intros H. apply title_of_text_proper in H. apply H.
Qed.

(** The function in terms of its two calls. *)
Lemma get_disc_title_between_cases (fs fs' : node) (d : path) :
  get_disc_title_between fs fs' d =
  Ok match find_bdmt_eng_file fs d with
     | Ok (Some f) =>
         match BDMTMetadata_init fs' f with
         | Ok m => disc_title m
         | Raise _ => None
         end
     | _ => None
     end.
Proof.
  unfold get_disc_title_between.
  destruct (find_bdmt_eng_file fs d) as [[f|]|]; simpl; auto.
  destruct (BDMTMetadata_init fs' f); reflexivity.
Qed.

Lemma get_disc_title_static (fs : node) (d : path) :
  get_disc_title fs d = get_disc_title_between fs fs d.
Proof. reflexivity. Qed.

Lemma search_missing (fs : node) (d : path) (name : string) :
  os_path_exists fs d = false -> search fs d name = [].
Proof.
  unfold os_path_exists, search, rglob, Path_is_dir.
  destruct (stat fs d) as [[]|]; try discriminate; reflexivity.
Qed.

Lemma find_missing (fs : node) (d : path) :
  os_path_exists fs d = false ->
  find_bdmt_eng_file fs d = Ok None \/
  find_bdmt_eng_file fs d = Raise PermissionError.
Proof.
  intros H. rewrite find_cases.
  rewrite std_path_app, alt_path_app, !(missing_below _ _ _ H).
  rewrite !(search_missing _ _ _ H).
  destruct (denied fs _); auto. destruct (denied fs _); auto.
Qed.

End Entry.

(** C3. [get_disc_title] never raises, on any directory and any
    filesystem, and not even when the filesystem changes between the
    search and the construction of the object.  Every failure gives an
    absent title: no candidate file, a search that raises, a directory
    that does not exist, a file that cannot be parsed, a constructor
    that raises. *)
Theorem get_disc_title_never_raises (fs fs' : node) (d : path) :
  raises (get_disc_title fs d) = false /\
  exists r,
    get_disc_title_between fs fs' d = Ok r /\
    (find_bdmt_eng_file fs d = Ok None -> r = None) /\
    (forall e, find_bdmt_eng_file fs d = Raise e -> r = None) /\
    (os_path_exists fs d = false -> r = None) /\
    (forall f e, find_bdmt_eng_file fs d = Ok (Some f) ->
                 ET_parse fs' f = Raise e -> r = None) /\
    (forall f e, find_bdmt_eng_file fs d = Ok (Some f) ->
                 BDMTMetadata_init fs' f = Raise e -> r = None).
Proof.
  split.
  - rewrite get_disc_title_static, get_disc_title_between_cases. reflexivity.
  - rewrite get_disc_title_between_cases. eexists. split; [reflexivity|].
    repeat split.
    + intros ->. reflexivity.
    + intros e ->. reflexivity.
    + intros H. destruct (find_missing fs d H) as [-> | ->]; reflexivity.
    + intros f e -> H. rewrite init_cases, H.
      destruct (os_path_exists fs' f); reflexivity.
    + intros f e -> ->. reflexivity.
Qed.

(** The descriptor is found, then removed before the constructor runs:
    the constructor raises and the function returns no title. *)
Example file_removed_after_search :
  let fs := disc_of_file (File true (WellFormed (descriptor (Some "MATRIX")))) in
  let fs' := Dir true true [("disc", Dir true true [])] in
  find_bdmt_eng_file fs ["disc"] = Ok (Some (std_path ["disc"])) /\
  BDMTMetadata_init fs' (std_path ["disc"]) = Raise FileNotFoundError /\
  get_disc_title_between fs fs' ["disc"] = Ok None.
Proof. repeat split. Qed.

Lemma get_disc_title_never_raises_witness :
  get_disc_title closed_disc ["disc"] = Ok None.
Proof.
  destruct (get_disc_title_never_raises closed_disc closed_disc ["disc"])
    as (_ & r & Hr & _ & Hraise & _).
  rewrite get_disc_title_static, Hr.
  rewrite (Hraise PermissionError); reflexivity.
Defined.

(** C9. A title that [get_disc_title] returns, or that a constructed
    object holds, is not empty, neither starts nor ends with
    whitespace, and is not [blu-ray] under case-insensitive
    comparison. *)
Theorem titles_are_proper (fs : node) (t : string) :
  (exists d, get_disc_title fs d = Ok (Some t)) \/
  (exists p m, BDMTMetadata_init fs p = Ok m /\ disc_title m = Some t) ->
  proper_title t.
Proof.
  intros [(d & H) | (p & m & Hm & Ht)].
  - rewrite get_disc_title_static, get_disc_title_between_cases in H.
    destruct (find_bdmt_eng_file fs d) as [[f|]|]; try discriminate.
    destruct (BDMTMetadata_init fs f) as [m|] eqn:Hm; [|discriminate].
    injection H as H. exact (init_title_proper _ _ _ _ Hm H).
  - exact (init_title_proper _ _ _ _ Hm Ht).
Qed.

Lemma titles_are_proper_witness : proper_title "Inception".
Proof.
  apply (titles_are_proper (disc_with (Some " Inception "))).
  left. exists ["disc"]. reflexivity.
Defined.

(** ** The result depends on the directory only *)

Section Locality.

Variable fs : node.
Variable d : path.
Variable n : node.
Hypothesis at_d : stat fs d = inr n.

Lemma stat_shift (q : path) : stat fs (d ++ q) = stat n q.
Proof. rewrite stat_app, at_d. reflexivity. Qed.

Lemma joinpath_shift (q : path) (name : string) :
  joinpath (d ++ q) name = d ++ joinpath q name.
Proof. unfold joinpath. symmetry. apply app_assoc. Qed.

Lemma iterate_directories_shift (m : node) :
  forall ok q,
    iterate_directories ok (d ++ q) m = map (app d) (iterate_directories ok q m).
Proof.
  induction m as [r data | r x entries IH] using node_nested_ind; intros ok q.
  - reflexivity.
  - simpl. f_equal. destruct (ok && r); [|reflexivity].
    induction IH as [|[name child] l Hchild _ IHl]; [reflexivity|].
    simpl. rewrite map_app, IHl. f_equal.
    destruct child as [|r' x' es']; [reflexivity|].
    rewrite joinpath_shift. apply Hchild.
Qed.

Lemma precise_select_shift (name : string) (q : path) :
  precise_select fs name (d ++ q) = map (app d) (precise_select n name q).
Proof.
  unfold precise_select, Path_exists.
  rewrite joinpath_shift, stat_shift.
  destruct (stat n (joinpath q name)) as [[]|]; reflexivity.
Qed.

Lemma unique_shift (l : list path) :
  forall yielded,
    unique (map (app d) yielded) (map (app d) l) = map (app d) (unique yielded l).
Proof.
  induction l as [|p l IH]; intros yielded; [reflexivity|].
  simpl.
  assert (E : existsb (path_eqb (d ++ p)) (map (app d) yielded)
              = existsb (path_eqb p) yielded).
  { induction yielded as [|y ys IHy]; [reflexivity|].
    simpl. rewrite IHy. f_equal. unfold path_eqb.
    destruct (list_eq_dec string_dec (d ++ p) (d ++ y)) as [H|H];
      destruct (list_eq_dec string_dec p y) as [H'|H']; auto.
    - apply app_inv_head in H. contradiction.
    - subst. contradiction. }
  rewrite E. destruct (existsb (path_eqb p) yielded); [apply IH|].
  simpl. f_equal. apply (IH (p :: yielded)).
Qed.

Lemma search_shift (name : string) :
  search fs d name = map (app d) (search n [] name).
Proof.
  unfold search, rglob, Path_is_dir. rewrite at_d. simpl.
  destruct (is_directory n); [|reflexivity]. simpl.
  rewrite <- (unique_shift _ []). simpl. f_equal.
  rewrite <- (app_nil_r d) at 1. rewrite iterate_directories_shift.
  generalize (iterate_directories true [] n). intros l.
  induction l as [|q l IH]; [reflexivity|].
  simpl. rewrite map_app, IH, precise_select_shift. reflexivity.
Qed.

Lemma denied_shift (q : path) : denied fs (d ++ q) = denied n q.
Proof. unfold denied. rewrite stat_shift. reflexivity. Qed.

Lemma exists_shift (q : path) : os_path_exists fs (d ++ q) = os_path_exists n q.
Proof. unfold os_path_exists. rewrite stat_shift. reflexivity. Qed.

(** The search from [d] in [fs] is the search from the top of [n],
    with [d] in front of what it finds. *)
Lemma find_shift :
  find_bdmt_eng_file fs d =
  match find_bdmt_eng_file n [] with
  | Ok r => Ok (option_map (app d) r)
  | Raise e => Raise e
  end.
Proof.
  rewrite !find_cases.
  rewrite (std_path_app d), (alt_path_app d), (std_path_app []), (alt_path_app []).
  rewrite !denied_shift, !exists_shift, !search_shift. simpl app.
  destruct (denied n _); [reflexivity|].
  destruct (os_path_exists n _); [reflexivity|].
  destruct (denied n _); [reflexivity|].
  destruct (os_path_exists n _); [reflexivity|].
  destruct (search n [] "bdmt_eng.xml"); [|reflexivity].
  destruct (search n [] "BDMT_ENG.XML"); reflexivity.
Qed.



End Locality.




(** ** Further properties of [find_bdmt_eng_file] *)

Section LocatorFacts.

Lemma joinpath_below (d rel : path) (name : string) :
  joinpath (d ++ rel) name = d ++ joinpath rel name.
Proof. unfold joinpath. symmetry. apply app_assoc. Qed.

(** What a returned path can be. *)
Lemma find_some_cases (fs : node) (d p : path) :
  find_bdmt_eng_file fs d = Ok (Some p) ->
  os_path_exists fs p = true /\
  exists rel, p = joinpath (d ++ rel) "bdmt_eng.xml" \/
              p = joinpath (d ++ rel) "BDMT_ENG.XML".
Proof.
  rewrite find_cases.
  destruct (denied fs (std_path d)); [discriminate|].
  destruct (os_path_exists fs (std_path d)) eqn:Es.
  { intros [= <-]. split; [exact Es|]. exists ["BDMV"; "META"]. left.
    rewrite std_path_app. unfold joinpath. rewrite <- app_assoc. reflexivity. }
  destruct (denied fs (alt_path d)); [discriminate|].
  destruct (os_path_exists fs (alt_path d)) eqn:Ea.
  { intros [= <-]. split; [exact Ea|]. exists ["META"]. left.
    rewrite alt_path_app. unfold joinpath. rewrite <- app_assoc. reflexivity. }
  destruct (search fs d "bdmt_eng.xml") as [|q l] eqn:El.
  - destruct (search fs d "BDMT_ENG.XML") as [|q l] eqn:Eu; [discriminate|].
    intros [= <-].
    destruct (search_sound fs d "BDMT_ENG.XML" q) as (rel & -> & Hq).
    { rewrite Eu. left; reflexivity. }
    split; [exact Hq|]. exists rel. right; reflexivity.
  - intros [= <-].
    destruct (search_sound fs d "bdmt_eng.xml" q) as (rel & -> & Hq).
    { rewrite El. left; reflexivity. }
    split; [exact Hq|]. exists rel. left; reflexivity.
Qed.

(** The recursive search asks the directory itself first. *)
Lemma search_head (fs : node) (d : path) (name : string) :
  os_path_exists fs (joinpath d name) = true ->
  exists l, search fs d name = joinpath d name :: l.
Proof.
  unfold os_path_exists, search, rglob, Path_is_dir, joinpath.
  rewrite stat_app. destruct (stat fs d) as [|n] eqn:Hd; [discriminate|].
  intros H. destruct n as [|r x entries]; [discriminate|]. simpl.
  unfold precise_select at 1. unfold Path_exists, joinpath.
  rewrite stat_app, Hd.
  destruct (stat (Dir r x entries) [name]) as [|e]; [discriminate|].
  simpl. eexists. reflexivity.
Qed.

Lemma init_title_stat (fs1 fs2 : node) (p1 p2 : path) :
  stat fs1 p1 = stat fs2 p2 ->
  match BDMTMetadata_init fs1 p1 with
  | Ok m => Ok (disc_title m)
  | Raise e => Raise e
  end =
  match BDMTMetadata_init fs2 p2 with
  | Ok m => Ok (disc_title m)
  | Raise e => Raise e
  end.
Proof.
  intros H. rewrite !init_cases. unfold os_path_exists, ET_parse. rewrite H.
  destruct (stat fs2 p2); reflexivity.
Qed.

End LocatorFacts.

(** X1. A path that [find_bdmt_eng_file] returns exists, lies below the
    directory searched, and its last component is [bdmt_eng.xml] or
    [BDMT_ENG.XML]: no other spelling of the name is ever returned. *)
Theorem find_result_exists_below (fs : node) (d p : path) :
  find_bdmt_eng_file fs d = Ok (Some p) ->
  os_path_exists fs p = true /\
  (exists rel, p = d ++ rel) /\
  (last p "" = "bdmt_eng.xml" \/ last p "" = "BDMT_ENG.XML").
Proof.
  intros H. apply find_some_cases in H. destruct H as (He & rel & [-> | ->]).
  - split; [exact He|]. split.
    + rewrite joinpath_below. eauto.
    + left. apply last_joinpath.
  - split; [exact He|]. split.
    + rewrite joinpath_below. eauto.
    + right. apply last_joinpath.
Qed.

Lemma find_result_exists_below_witness :
  os_path_exists (disc_with None) ["disc"; "META"; "bdmt_eng.xml"] = true /\
  (exists rel, ["disc"; "META"; "bdmt_eng.xml"] = ["disc"] ++ rel) /\
  (last ["disc"; "META"; "bdmt_eng.xml"] "" = "bdmt_eng.xml" \/
   last ["disc"; "META"; "bdmt_eng.xml"] "" = "BDMT_ENG.XML").
Proof.
  apply (find_result_exists_below (disc_with None) ["disc"]). reflexivity.
Defined.



(** X3. On the path that [find_bdmt_eng_file] returns, the constructor
    does not raise (in the filesystem that was searched): the object is
    built, with that path as its [filename]. *)
Theorem init_succeeds_on_found_path (fs : node) (d p : path) :
  find_bdmt_eng_file fs d = Ok (Some p) ->
  exists m, BDMTMetadata_init fs p = Ok m /\ filename m = p.
Proof.
  intros H. apply find_some_cases in H. destruct H as [He _].
  rewrite init_cases, He. eexists. split; reflexivity.
Qed.

Lemma init_succeeds_on_found_path_witness :
  exists m,
    BDMTMetadata_init dir_at_alt_path (alt_path ["disc"]) = Ok m /\
    filename m = alt_path ["disc"].
Proof.
  apply (init_succeeds_on_found_path dir_at_alt_path ["disc"]). reflexivity.
Defined.

(** X4. The search looks at nothing outside the directory: when the
    search below a directory [d] returns and the search from the top of
    the tree that [d] leads to returns as well, the first result is the
    second with [d] put in front of the path found. *)
Theorem find_relocates
  (fs : node) (d : path) (n : node) (r r' : option path) :
  stat fs d = inr n ->
  find_bdmt_eng_file fs d = Ok r ->
  find_bdmt_eng_file n [] = Ok r' ->
  r = option_map (app d) r'.
Proof.
  intros H Hr Hr'. rewrite (find_shift fs d n H), Hr' in Hr.
  injection Hr as <-. reflexivity.
Qed.

Lemma find_relocates_witness :
  Some ["disc"; "META"; "bdmt_eng.xml"]
  = option_map (app ["disc"]) (Some ["META"; "bdmt_eng.xml"]).
Proof.
  refine (find_relocates (disc_with None) ["disc"] _ _ _ eq_refl _ _);
    reflexivity.
Defined.

(** X5. When neither exact path exists, a [bdmt_eng.xml] that lies
    directly in the directory is the one returned, whatever lies
    deeper: the recursive search asks the directory itself before its
    subdirectories. *)
Theorem direct_child_found_first (fs : node) (d : path) :
  denied fs (std_path d) = false ->
  denied fs (alt_path d) = false ->
  os_path_exists fs (std_path d) = false ->
  os_path_exists fs (alt_path d) = false ->
  os_path_exists fs (joinpath d "bdmt_eng.xml") = true ->
  find_bdmt_eng_file fs d = Ok (Some (joinpath d "bdmt_eng.xml")).
Proof.
  intros Hs Ha Es Ea H. rewrite find_cases, Hs, Es, Ha, Ea.
  destruct (search_head fs d "bdmt_eng.xml" H) as [l ->]. reflexivity.
Qed.

Lemma direct_child_found_first_witness :
  let f := File true Malformed in
  let fs :=
    Dir true true
      [("disc", Dir true true
          [("a", Dir true true [("bdmt_eng.xml", f)]);
           ("bdmt_eng.xml", f)])] in
  find_bdmt_eng_file fs ["disc"] = Ok (Some ["disc"; "bdmt_eng.xml"]).
Proof.
  intros f fs. apply (direct_child_found_first fs ["disc"]); reflexivity.
Defined.

(** ** Further properties of [get_disc_title] *)

Section EntryFacts.

Lemma title_of_text_some (txt : option string) (t : string) :
  title_of_text txt = Some t <->
  exists s, txt = Some s /\ Str.strip s = t /\
            t <> "" /\ caseless_eqb t "blu-ray" = false.
Proof.
  unfold title_of_text. split.
  - destruct txt as [s|]; [|discriminate].
    destruct (String.eqb (Str.strip s) "") eqn:E; [discriminate|].
    destruct (caseless_eqb (Str.strip s) "blu-ray") eqn:C; [discriminate|].
    intros [= <-]. exists s. repeat split; auto.
    intros H. rewrite H in E. discriminate.
  - intros (s & -> & <- & Hne & C). rewrite C.
    destruct (String.eqb (Str.strip s) "") eqn:E; [|reflexivity].
    apply String.eqb_eq in E. contradiction.
Qed.

End EntryFacts.

(** X6. [get_disc_title] returns a title [t] exactly when the search
    returns a path, the file there parses, the title path leads to an
    element with a text, and [t] is that text stripped, not empty and
    not the placeholder.  There is no other source of a title. *)
Theorem get_disc_title_some_iff (fs : node) (d : path) (t : string) :
  get_disc_title fs d = Ok (Some t) <->
  exists f root node s,
    find_bdmt_eng_file fs d = Ok (Some f) /\
    ET_parse fs f = Ok root /\
    ET.find root title_path = Some node /\
    ET.text node = Some s /\
    Str.strip s = t /\ t <> "" /\ caseless_eqb t "blu-ray" = false.
Proof.
  rewrite get_disc_title_static, get_disc_title_between_cases. split.
  - destruct (find_bdmt_eng_file fs d) as [[f|]|] eqn:Ef; try discriminate.
    rewrite init_cases. destruct (os_path_exists fs f); [|discriminate].
    simpl. destruct (ET_parse fs f) as [root|] eqn:Ep; [|discriminate].
    destruct (ET.find root title_path) as [node|] eqn:En; [|discriminate].
    intros [= H]. apply title_of_text_some in H.
    destruct H as (s & Hs & Ht & Hne & Hc).
    exists f, root, node, s. repeat split; auto.
  - intros (f & root & node & s & -> & Hparse & Hfind & Hs & Ht & Hne & Hc).
    rewrite init_cases, (parse_ok_exists _ _ _ Hparse), Hparse, Hfind. simpl.
    f_equal. apply title_of_text_some. exists s. auto.
Qed.



(** X8. When an entry exists at the standard path, the title is
    decided by that entry alone: two filesystems that have the same
    entry there give the same result, whatever else they hold.  In
    particular a descriptor at the standard path that cannot be used
    is not made up for by one at the alternative path or deeper. *)
Theorem standard_path_decides (fs1 fs2 : node) (d1 d2 : path) (n : node) :
  stat fs1 (std_path d1) = inr n ->
  stat fs2 (std_path d2) = inr n ->
  get_disc_title fs1 d1 = get_disc_title fs2 d2.
Proof.
  intros H1 H2.
  rewrite !get_disc_title_static, !get_disc_title_between_cases, !find_cases.
  unfold denied, os_path_exists. rewrite H1, H2. f_equal.
  assert (H : stat fs1 (std_path d1) = stat fs2 (std_path d2)) by congruence.
  apply init_title_stat in H.
  destruct (BDMTMetadata_init fs1 (std_path d1)),
           (BDMTMetadata_init fs2 (std_path d2)); congruence.
Qed.

Lemma standard_path_decides_witness :
  get_disc_title
    (Dir true true
       [("disc", Dir true true
           [("BDMV", Dir true true
               [("META", Dir true true
                   [("bdmt_eng.xml", File true Malformed)])]);
            ("META", Dir true true
               [("bdmt_eng.xml",
                 File true (WellFormed (descriptor (Some "MATRIX"))))])])])
    ["disc"]
  = get_disc_title (disc_of_file (File true Malformed)) ["disc"].
Proof.
  apply (standard_path_decides _ _ ["disc"] ["disc"] (File true Malformed));
    reflexivity.
Defined.

(** ** Further properties of the title rule of the constructor *)

Section TitleRule.

Import Str.

Lemma append_assoc (a b c : string) : ((a ++ b) ++ c = a ++ (b ++ c))%string.
Proof. induction a as [|x a IH]; simpl; [reflexivity | rewrite IH; reflexivity]. Qed.

Lemma all_space_append (a b : string) :
  all_space (a ++ b) = all_space a && all_space b.
Proof.
  induction a as [|x a IH]; simpl; [reflexivity|].
  rewrite IH. apply andb_assoc.
Qed.

Lemma strip_padded (l s r : string) :
  all_space l = true -> all_space r = true ->
  strip (l ++ s ++ r) = strip s.
Proof.
  intros Hl Hr. symmetry. apply trimmed_unique.
  destruct (strip_trimmed s) as (l' & r' & Hs & Hl' & Hr' & Hh & Ht).
  exists (l ++ l')%string, (r' ++ r)%string. repeat split; auto.
  - rewrite Hs at 1. rewrite !append_assoc. reflexivity.
  - rewrite all_space_append, Hl, Hl'. reflexivity.
  - rewrite all_space_append, Hr, Hr'. reflexivity.
Qed.

Lemma strip_fixed (t : string) :
  starts_with_space t = false -> ends_with_space t = false -> strip t = t.
Proof.
  intros Hh Ht. symmetry. apply trimmed_unique.
  exists "", "". repeat split; auto.
  simpl. clear. induction t as [|c t IH]; simpl; [reflexivity|].
  rewrite <- IH. reflexivity.
Qed.

Lemma strip_blank (s : string) : strip s = "" <-> all_space s = true.
Proof.
  split.
  - intros H. destruct (strip_trimmed s) as (l & r & Hs & Hl & Hr & _).
    rewrite H in Hs. simpl in Hs. rewrite Hs, all_space_append, Hl, Hr.
    reflexivity.
  - intros H. unfold strip. rewrite (lstrip_all_space s H). reflexivity.
Qed.

End TitleRule.

(** X9. The title rule is a fixed point on what it produces: a title
    that the constructor has stored, given back as the text of a title
    element, is stored unchanged. *)
Theorem stored_title_is_stable
  (node : ET.Element) (p q : path) (t tg : string) (cs : list ET.Element) :
  disc_title (store_title (Some node) {| filename := p; disc_title := None |})
  = Some t ->
  disc_title (store_title (Some (ET.Elem tg (Some t) cs))
                          {| filename := q; disc_title := None |})
  = Some t.
Proof.
  rewrite !store_title_spec. cbn [disc_title ET.text]. intros H.
  apply title_of_text_proper in H. destruct H as [(Hne & Hh & Ht & Hc) _].
  apply (title_of_text_some (Some t) t). exists t. repeat split; auto.
  apply strip_fixed; assumption.
Qed.

Lemma stored_title_is_stable_witness :
  disc_title (store_title (Some (ET.Elem "name" (Some "Inception") []))
                          {| filename := []; disc_title := None |})
  = Some "Inception".
Proof.
  apply (stored_title_is_stable
           (ET.Elem "name" (Some "  Inception ") []) ["a"]).
  reflexivity.
Defined.

(** X10. Whitespace around the text of the title element does not
    change the title stored: the text between two runs of whitespace
    gives what the text alone gives. *)
Theorem padding_is_ignored
  (l s r tg tg' : string) (cs cs' : list ET.Element) (p : path) :
  Str.all_space l = true -> Str.all_space r = true ->
  store_title (Some (ET.Elem tg (Some (l ++ s ++ r)%string) cs))
              {| filename := p; disc_title := None |}
  = store_title (Some (ET.Elem tg' (Some s) cs'))
                {| filename := p; disc_title := None |}.
Proof.
  intros Hl Hr. rewrite !store_title_spec. simpl. unfold title_of_text.
  rewrite (strip_padded l s r Hl Hr). reflexivity.
Qed.

Lemma padding_is_ignored_witness :
  store_title (Some (ET.Elem "name" (Some ("  " ++ "MATRIX" ++ " ")%string) []))
              {| filename := []; disc_title := None |}
  = store_title (Some (ET.Elem "name" (Some "MATRIX") []))
                {| filename := []; disc_title := None |}.
Proof.
  apply (padding_is_ignored "  " "MATRIX" " "); reflexivity.
Defined.

(** X11. For a title element that was found, the constructor leaves
    the title absent in three cases only: the element has no text, the
    text is whitespace throughout (or empty), or the stripped text is
    [blu-ray] once put in lower case. *)
Theorem title_absent_iff (node : ET.Element) (p : path) :
  disc_title (store_title (Some node) {| filename := p; disc_title := None |})
  = None <->
  ET.text node = None \/
  exists s, ET.text node = Some s /\
            (Str.all_space s = true \/ Str.lower (Str.strip s) = "blu-ray").
Proof.
  rewrite store_title_spec. simpl. unfold title_of_text, caseless_eqb.
  rewrite lower_placeholder.
  destruct (ET.text node) as [s|]; [|split; auto].
  destruct (String.eqb (Str.strip s) "") eqn:E.
  - apply String.eqb_eq, strip_blank in E. split; [|reflexivity].
    intros _. right. exists s. auto.
  - destruct (String.eqb (Str.lower (Str.strip s)) "blu-ray") eqn:C.
    + apply String.eqb_eq in C. split; [|reflexivity].
      intros _. right. exists s. auto.
    + split; [discriminate|].
      intros [H | (s' & [= <-] & [H | H])]; [discriminate| |].
      * apply strip_blank in H. rewrite H in E. discriminate.
      * rewrite H in C. discriminate.
Qed.

(** ** Properties of [__repr__] *)

Section ReprFacts.

Lemma length_append (a b : string) :
  String.length (a ++ b) = String.length a + String.length b.
Proof. induction a as [|c a IH]; simpl; [reflexivity | rewrite IH; reflexivity]. Qed.

Lemma append_cancel_r (a b suffix : string) :
  (a ++ suffix = b ++ suffix)%string -> a = b.
Proof.
  revert b. induction a as [|c a IH]; intros [|c' b] H; simpl in H.
  - reflexivity.
  - apply (f_equal String.length) in H. simpl in H.
    rewrite length_append in H. lia.
  - apply (f_equal String.length) in H. simpl in H.
    rewrite length_append in H. lia.
  - injection H as -> H. f_equal. apply IH, H.
Qed.

Lemma append_cancel_l (prefix a b : string) :
  (prefix ++ a = prefix ++ b)%string -> a = b.
Proof.
  induction prefix as [|c prefix IH]; simpl; [auto|].
  intros H. injection H as H. apply IH, H.
Qed.

(** What the f-string shows for an object that the constructor built:
    its title, or [Unknown Title] when it has none. *)
Lemma repr_constructed (fs : node) (p : path) (m : BDMTMetadata) :
  BDMTMetadata_init fs p = Ok m ->
  BDMTMetadata_repr m =
  ("<BDMTMetadata title='"
   ++ match disc_title m with Some t => t | None => "Unknown Title" end
   ++ "'>")%string.
Proof.
  intros H. unfold BDMTMetadata_repr.
  destruct (disc_title m) as [t|] eqn:E; [|reflexivity].
  destruct (init_title_proper fs p m t H E) as [Hne _].
  destruct t; [contradiction | reflexivity].
Qed.

End ReprFacts.

(** X12. Whatever the object holds, [__repr__] shows a title that is
    not empty between its two fixed parts: a missing title and an empty
    one both show as [Unknown Title]. *)
Theorem repr_never_shows_empty_title (m : BDMTMetadata) :
  (exists t, t <> "" /\
             BDMTMetadata_repr m = ("<BDMTMetadata title='" ++ t ++ "'>")%string) /\
  (disc_title m = None \/ disc_title m = Some "" ->
   BDMTMetadata_repr m = "<BDMTMetadata title='Unknown Title'>").
Proof.
  unfold BDMTMetadata_repr. split.
  - destruct (disc_title m) as [[|c t]|].
    + exists "Unknown Title". split; [discriminate | reflexivity].
    + exists (String c t). split; [discriminate | reflexivity].
    + exists "Unknown Title". split; [discriminate | reflexivity].
  - intros [-> | ->]; reflexivity.
Qed.

Lemma repr_never_shows_empty_title_witness :
  BDMTMetadata_repr {| filename := ["disc"]; disc_title := Some "" |}
  = "<BDMTMetadata title='Unknown Title'>".
Proof.
  apply (proj2 (repr_never_shows_empty_title
                  {| filename := ["disc"]; disc_title := Some "" |})).
  right. reflexivity.
Defined.

(** X13. Two objects that the constructor built have the same
    [__repr__] exactly when they have the same title, or when each of
    them shows [Unknown Title] (no title, or that text as title).  The
    [filename] is not shown, and a descriptor whose title is
    [Unknown Title] cannot be told from one without a title. *)
Theorem repr_equal_iff
  (fs1 fs2 : node) (p1 p2 : path) (m1 m2 : BDMTMetadata) :
  BDMTMetadata_init fs1 p1 = Ok m1 ->
  BDMTMetadata_init fs2 p2 = Ok m2 ->
  (BDMTMetadata_repr m1 = BDMTMetadata_repr m2 <->
   disc_title m1 = disc_title m2 \/ (shows_unknown m1 /\ shows_unknown m2)).
Proof.
  intros H1 H2.
  rewrite (repr_constructed _ _ _ H1), (repr_constructed _ _ _ H2).
  unfold shows_unknown. split.
  - intros H. apply append_cancel_l, append_cancel_r in H.
    destruct (disc_title m1) as [t1|], (disc_title m2) as [t2|]; subst; auto.
  - intros [-> | [[E1 | E1] [E2 | E2]]]; try reflexivity;
      rewrite E1, E2; reflexivity.
Qed.

Lemma repr_equal_iff_witness :
  BDMTMetadata_repr
    {| filename := alt_path ["disc"]; disc_title := Some "Unknown Title" |}
  = BDMTMetadata_repr {| filename := std_path ["disc"]; disc_title := None |}.
Proof.
  apply (proj2 (repr_equal_iff
                  (disc_with (Some "Unknown Title")) dir_at_std_path
                  (alt_path ["disc"]) (std_path ["disc"]) _ _
                  eq_refl eq_refl)).
  right. split; [right | left]; reflexivity.
Defined.

(** ** The title path under wrapper elements *)

(** X14. A document that holds the title path anywhere (its [discinfo]
    being the root or below it) is searched with success as soon as it
    is put under a wrapper element, whatever the wrapper's tag and its
    other children: the search then finds a title name element. *)
Theorem wrapped_document_is_found
  (root n : ET.Element) (tg : string) (x : option string)
  (before after : list ET.Element) :
  path_anywhere root n ->
  exists n',
    ET.find (ET.Elem tg x (before ++ root :: after)) title_path = Some n' /\
    path_below_root (ET.Elem tg x (before ++ root :: after)) n'.
Proof.
  intros (d & Hd & Hpath).
  set (w := ET.Elem tg x (before ++ root :: after)).
  assert (Hroot : In root (ET.children w)).
  { simpl. apply in_or_app. right. left. reflexivity. }
  assert (Hn : path_below_root w n).
  { exists d. split; [|exact Hpath].
    destruct Hd as [-> | Hd].
    - apply below_child, Hroot.
    - apply (below_deeper d w root Hroot Hd). }
  apply in_iterfind_title_path in Hn.
  unfold ET.find. destruct (ET.iterfind w title_path) as [|n' l] eqn:E.
  - contradiction.
  - exists n'. split; [reflexivity|].
    apply in_iterfind_title_path. rewrite E. left. reflexivity.
Qed.

Lemma wrapped_document_is_found_witness :
  exists n',
    ET.find (ET.Elem "disclib" None ([] ++ discinfo_as_root :: [])) title_path
    = Some n' /\
    path_below_root (ET.Elem "disclib" None ([] ++ discinfo_as_root :: [])) n'.
Proof.
  apply (wrapped_document_is_found
           discinfo_as_root
           (ET.Elem (ET.qname ns_di "name") (Some "MATRIX") [])).
  exists discinfo_as_root. split; [left; reflexivity|].
  split; [reflexivity|].
  exists (ET.Elem (ET.qname ns_di "title") None
            [ET.Elem (ET.qname ns_di "name") (Some "MATRIX") []]).
  simpl. auto.
Defined.
